(** * Circuit-breaker wrapper: a shallow embedding of [index.js]

    The wrapper of [index.js] puts an event emitter around a circuit-breaker
    engine.  This development embeds the wrapper ([getState],
    [emitStateChange], [emitWithArgs], [run], [emitter.run], [emitter.wrap],
    [create]) as functions over an explicit world (the engine object and the
    closure variable [lastStateChange]) that log every observable action in
    a trace, and states the properties of the wrapper over that trace.

    The engine itself ([require('circuit-breaker-js')]) is not part of the
    sources; the wrapper is embedded over an interface of it ([Engine]) and
    an instance of the interface is modelled from the specification
    ([Breaker]). *)

From Stdlib Require Import ZArith QArith Qround Lia Bool.
From stdpp Require Import base list strings.

Open Scope Z_scope.

(** ** JavaScript values *)

(** The values that flow through the wrapper: what a worker hands to the
    completion function, what the callback returns.  [VObj] is an opaque
    reference (an object, an array, a function that is never applied by the
    wrapper); [VError] is [new Error(message)]. *)
Inductive jsval : Type :=
| VUndefined
| VNull
| VBool (b : bool)
| VNum (n : Z)
| VNaN
| VStr (s : string)
| VError (message : string)
| VObj (ref : nat).

(** [if (v)]: the falsy values are [undefined], [null], [false], [0],
    [NaN] and the empty string. *)
Definition truthy (v : jsval) : bool :=
  match v with
  | VUndefined | VNull | VNaN => false
  | VBool b => b
  | VNum n => negb (n =? 0)
  | VStr s => negb (String.eqb s "")
  | VError _ | VObj _ => true
  end.

(** An element of a JavaScript argument list: a plain value, or a function
    that the wrapper may apply (the trailing callback of [emitter.run]). *)
Inductive jsarg : Type :=
| Data (v : jsval)
| Fn (f : list jsval -> jsval).

(** The caller's callback, applied to the arguments of the completion
    function and returning the verdict. *)
Definition Callback : Type := list jsval -> jsval.

(** A worker, seen from the wrapper: applied to its arguments and to the
    completion function, it invokes the completion function some number of
    times before it returns, each time with a list of arguments.  The
    completion function returns [undefined], so the worker learns nothing
    from it.  A worker that keeps the completion function and invokes it in
    a later turn is a [Done] step of a history; workers and callbacks that
    throw, or that call back into the same breaker, are outside the
    embedding. *)
Definition Worker : Type := list jsarg -> list (list jsval).

(** ** The engine interface *)

Inductive BreakerState : Type := OPEN | HALF_OPEN | CLOSED.

Module Metrics.
Record t : Type := mk
  { totalCount : Z;
    errorCount : Z;
    errorPercentage : Q }.
End Metrics.

(** The [options] object of [create]; an unset property is [None]. *)
Module Options.
Record t : Type := mk
  { windowDuration : option Z;
    numBuckets : option Z;
    timeoutDuration : option Z;
    errorThreshold : option Q;
    volumeThreshold : option Z }.
Definition empty : t := mk None None None None None.
End Options.

Inductive Outcome : Type := Success | Failure.

(** Modelled from the spec: the circuit-breaker engine of the package
    [circuit-breaker-js] is missing from the sources.  Its interface follows
    section 4.3 of the specification: an admission check, and the report of
    an outcome, which records it and re-evaluates the state machine; a
    transition that has a side effect "emit state-change" calls
    [onCircuitOpen] or [onCircuitClose] with the metrics, after the state
    was updated, which is the [Some] of [report].  The integer argument of
    each operation is the wall clock in milliseconds. *)
Class Engine (B : Type) : Type :=
  { new_CircuitBreaker : Z -> Options.t -> B;
    _state : B -> BreakerState;
    attempt : Z -> B -> bool * B;
    report : Outcome -> Z -> B -> B * option Metrics.t }.

(** ** Events and traces *)

Module Event.
(** Payload of [run], [success], [failure] and [rejected]. *)
Record call : Type := mkCall
  { c_service : string;
    c_name : string;
    c_state : string;
    c_args : list jsarg }.

(** Payload of [stateChange], [open] and [closed]. *)
Record change : Type := mkChange
  { service : string;
    name : string;
    state : string;
    duration : option Q;
    time : Z;
    totalCount : Z;
    errorCount : Z;
    errorPercentage : Q }.

Inductive payload : Type :=
| Call (e : call)
| Change (e : change).
End Event.

(** What an observer of one breaker can see, in the order it happens. *)
Inductive action : Type :=
| Emit (event : string) (p : Event.payload)
| ApplyWorker (args : list jsarg)
| ApplyCallback (arguments : list jsval)
| EngineReport (o : Outcome).

Definition trace : Type := list action.

(** ** The wrapper *)

Section Wrapper.
Context {B : Type} {E : Engine B}.

(** The variables the closures of [create] share. *)
Record World : Type := mkWorld
  { breaker : B;
    lastStateChange : option Z }.

(** A computation of the wrapper reads the clock, updates the world and
    appends to the trace.  The clock stands still during one synchronous
    turn. *)
Definition M (A : Type) : Type := Z -> World -> A * World * trace.

Definition ret {A} (a : A) : M A := fun _ w => (a, w, []).

Definition bind {A C} (m : M A) (k : A -> M C) : M C :=
  fun now w =>
    let '(a, w1, t1) := m now w in
    let '(c, w2, t2) := k a now w1 in
    (c, w2, t1 ++ t2).

Notation "'let*' x ':=' m 'in' k" := (bind m (fun x => k))
  (at level 10, x name, m at level 100, k at level 200).
Notation "m ';;' k" := (bind m (fun _ => k))
  (at level 100, k at level 200, right associativity).

Definition Date_now : M Z := fun now w => (now, w, []).
Definition log (a : action) : M unit := fun _ w => (tt, w, [a]).
Definition get_breaker : M B := fun _ w => (breaker w, w, []).
Definition set_breaker (b : B) : M unit :=
  fun _ w => (tt, mkWorld b (lastStateChange w), []).
Definition get_lastStateChange : M (option Z) :=
  fun _ w => (lastStateChange w, w, []).
Definition set_lastStateChange (t : Z) : M unit :=
  fun _ w => (tt, mkWorld (breaker w) (Some t), []).

Fixpoint forEach {A} (f : A -> M unit) (l : list A) : M unit :=
  match l with
  | [] => ret tt
  | x :: l' => f x ;; forEach f l'
  end.

Definition state_name (s : BreakerState) : string :=
  match s with
  | OPEN => "open"
  | HALF_OPEN => "halfOpen"
  | CLOSED => "closed"
  end.

Variables service name : string.

Definition getState : M string :=
  let* b := get_breaker in ret (state_name (_state b)).

(** [lastStateChange ? (now - lastStateChange) / 1000 : null]: the
    variable is [undefined] until the first state change, and a number
    is truthy unless it is zero. *)
Definition duration_since (last : option Z) (now : Z) : option Q :=
  match last with
  | Some t => if t =? 0 then None else Some (inject_Z (now - t) / 1000)%Q
  | None => None
  end.

Definition emitStateChange (metrics : Metrics.t) : M unit :=
  let* state := getState in
  let* now := Date_now in
  let* last := get_lastStateChange in
  let duration := duration_since last now in
  set_lastStateChange now ;;
  forEach (fun event =>
    log (Emit event (Event.Change
      {| Event.service := service;
         Event.name := name;
         Event.state := state;
         Event.duration := duration;
         Event.time := now;
         Event.totalCount := Metrics.totalCount metrics;
         Event.errorCount := Metrics.errorCount metrics;
         Event.errorPercentage := Metrics.errorPercentage metrics |})))
    ["stateChange"; state].

Definition emitWithArgs (event : string) (args : list jsarg) : M unit :=
  let* state := getState in
  log (Emit event (Event.Call
    {| Event.c_service := service;
       Event.c_name := name;
       Event.c_state := state;
       Event.c_args := args |})).

(** Modelled from the spec: the [success] and [failure] functions the
    engine hands to the command, missing from the sources.  The outcome is
    recorded and the state machine re-evaluated (section 4.3), and
    [onCircuitOpen] / [onCircuitClose], both bound to [emitStateChange] by
    [create], run before they return (section 4.5). *)
Definition engine_report (o : Outcome) : M unit :=
  log (EngineReport o) ;;
  let* b := get_breaker in
  let* now := Date_now in
  let '(b', changed) := report o now b in
  set_breaker b' ;;
  match changed with
  | Some metrics => emitStateChange metrics
  | None => ret tt
  end.

Definition success : M unit := engine_report Success.
Definition failure : M unit := engine_report Failure.

(** Modelled from the spec: [breaker.run(command, fallback)] of the engine,
    missing from the sources.  The admission check of section 4.3 comes
    first; the command runs when the call is admitted, the fallback when
    it is rejected. *)
Definition breaker_run (command fallback : M unit) : M unit :=
  let* b := get_breaker in
  let* now := Date_now in
  let '(allowed, b') := attempt now b in
  set_breaker b' ;;
  if allowed then command else fallback.

Definition apply_callback (callback : Callback) (arguments : list jsval)
  : M jsval :=
  log (ApplyCallback arguments) ;; ret (callback arguments).

(** The completion function that [run] appends to the worker's
    arguments. *)
Definition done (args : list jsarg) (callback : Callback)
    (arguments : list jsval) : M unit :=
  let* verdict := apply_callback callback arguments in
  if truthy verdict then
    success ;; emitWithArgs "success" args
  else
    failure ;; emitWithArgs "failure" args.

(** [worker.apply(null, args.concat([done]))]. *)
Definition apply_worker (worker : Worker) (args : list jsarg)
    (done : list jsval -> M unit) : M unit :=
  log (ApplyWorker args) ;; forEach done (worker args).

Definition unavailable : string :=
  "Service Unavailable: " +:+ service +:+ " (" +:+ name +:+ ")".

Definition run (worker : Worker) (args : list jsarg) (callback : Callback)
  : M unit :=
  breaker_run
    (emitWithArgs "run" args ;;
     apply_worker worker args (done args callback))
    (emitWithArgs "rejected" args ;;
     apply_callback callback [VError unavailable] ;; ret tt).

(** [Array.prototype.slice.call(arguments, 1)] followed by [args.pop()]:
    the list after the worker is split into its last element and the
    rest. *)
Fixpoint pop (l : list jsarg) : list jsarg * option jsarg :=
  match l with
  | [] => ([], None)
  | [x] => ([], Some x)
  | x :: l' => let '(r, last) := pop l' in (x :: r, last)
  end.

(** [emitter.run(worker, ...rest)].  When the popped value is not a
    function, JavaScript raises a [TypeError] at the first application of
    [callback]; such calls are outside the embedding ([None]). *)
Definition emitter_run (worker : Worker) (rest : list jsarg)
  : option (M unit) :=
  match pop rest with
  | (args, Some (Fn callback)) => Some (run worker args callback)
  | _ => None
  end.

(** The object [emitter.wrap] returns. *)
Record Wrapped : Type := mkWrapped
  { wrapped_args : list jsarg;
    wrapped_run : Callback -> M unit }.

Definition emitter_wrap (worker : Worker) (rest : list jsarg) : Wrapped :=
  let args := rest in
  {| wrapped_args := args;
     wrapped_run := fun callback => run worker args callback |}.

(** [options = options || {}] and the construction of the engine, at
    clock [now]. *)
Definition create (now : Z) (options : option Options.t) : World :=
  let options := match options with Some o => o | None => Options.empty end in
  {| breaker := new_CircuitBreaker now
       (Options.mk (Options.windowDuration options)
                   (Options.numBuckets options)
                   (Options.timeoutDuration options)
                   (Options.errorThreshold options)
                   (Options.volumeThreshold options));
     lastStateChange := None |}.

End Wrapper.

(** ** The engine of the specification *)

(** Modelled from the spec: the rolling window of section 4.1, missing from
    the sources with the rest of the engine.  A fixed number of buckets in
    a circular sequence, a cursor and the time of the last rotation. *)
Module MetricsWindow.
Record Bucket : Type := mkBucket
  { totalCount : Z;
    errorCount : Z;
    startTime : Q }.

Record t : Type := mk
  { windowDuration : Z;
    buckets : list Bucket;
    cursor : nat;
    lastRotated : Q }.

Definition numBuckets (w : t) : Z := Z.of_nat (length (buckets w)).

(** The width of a bucket, [windowDuration / numBuckets]: a fraction of a
    millisecond when the window has more buckets than milliseconds. *)
Definition width (w : t) : Q :=
  (inject_Z (windowDuration w) / inject_Z (numBuckets w))%Q.

Definition create (windowDuration numBuckets now : Z) : t :=
  {| windowDuration := windowDuration;
     buckets := replicate (Z.to_nat numBuckets) (mkBucket 0 0 (inject_Z now));
     cursor := 0;
     lastRotated := inject_Z now |}.

(** One bucket width has elapsed: the cursor moves on, and the bucket it
    moves onto is cleared. *)
Definition step (w : t) : t :=
  let c := ((cursor w + 1) mod length (buckets w))%nat in
  let start := Qred (lastRotated w + width w) in
  {| windowDuration := windowDuration w;
     buckets := <[c := mkBucket 0 0 start]> (buckets w);
     cursor := c;
     lastRotated := start |}.

Fixpoint advance (steps : nat) (w : t) : t :=
  match steps with
  | O => w
  | S k => advance k (step w)
  end.

(** Whole turns of the circular sequence that are followed by one more
    whole turn clear nothing that the last turn does not clear again, and
    bring the cursor back where it was: only the time moves. *)
Definition forward (widths : Z) (w : t) : t :=
  {| windowDuration := windowDuration w;
     buckets := buckets w;
     cursor := cursor w;
     lastRotated := Qred (lastRotated w + inject_Z widths * width w) |}.

(** The rotation to [now]: as many steps as whole bucket widths have
    elapsed since the last rotation.  A window that breaks the
    constraints [numBuckets >= 1] and [windowDuration > 0] does not
    rotate. *)
Definition rotate (now : Z) (w : t) : t :=
  if (windowDuration w <=? 0) || (numBuckets w <=? 0) then w
  else
    let steps := Qfloor ((inject_Z now - lastRotated w) / width w) in
    if steps <? numBuckets w then advance (Z.to_nat steps) w
    else
      let rest := numBuckets w + steps mod numBuckets w in
      advance (Z.to_nat rest) (forward (steps - rest) w).

Definition count (o : Outcome) (b : Bucket) : Bucket :=
  {| totalCount := totalCount b + 1;
     errorCount := match o with
                   | Success => errorCount b
                   | Failure => errorCount b + 1
                   end;
     startTime := startTime b |}.

(** [recordSuccess(now)] and [recordFailure(now)]. *)
Definition record (o : Outcome) (now : Z) (w : t) : t :=
  let w' := rotate now w in
  {| windowDuration := windowDuration w';
     buckets := alter (count o) (cursor w') (buckets w');
     cursor := cursor w';
     lastRotated := lastRotated w' |}.

Definition sum (f : Bucket -> Z) (l : list Bucket) : Z :=
  foldr (fun b acc => f b + acc) 0 l.

Definition snapshot (w : t) : Metrics.t :=
  let total := sum totalCount (buckets w) in
  let errors := sum errorCount (buckets w) in
  {| Metrics.totalCount := total;
     Metrics.errorCount := errors;
     Metrics.errorPercentage :=
       if 0 <? total then (inject_Z (errors * 100) / inject_Z total)%Q
       else 0%Q |}.
End MetricsWindow.

(** Modelled from the spec: the state machine of section 4.2, missing from
    the sources with the rest of the engine.  One function per column of
    its table: the admission check and the evaluation after an outcome. *)
Module StateMachine.
Record t : Type := mk
  { state : BreakerState;
    enteredAt : Z }.

Definition initial (now : Z) : t := mk CLOSED now.

(** [mayRun()].  The call that finds the timeout elapsed is the one
    trial; no other call is admitted until its outcome is known. *)
Definition mayRun (timeoutDuration now : Z) (s : t) : bool * t :=
  match state s with
  | CLOSED => (true, s)
  | OPEN =>
      if timeoutDuration <=? now - enteredAt s
      then (true, mk HALF_OPEN now)
      else (false, s)
  | HALF_OPEN => (false, s)
  end.

Definition overThreshold (volumeThreshold : Z) (errorThreshold : Q)
    (m : Metrics.t) : bool :=
  (volumeThreshold <=? Metrics.totalCount m)
  && Qle_bool errorThreshold (Metrics.errorPercentage m).

(** The transition after an outcome was recorded; the boolean tells
    whether the transition has the side effect "emit state-change". *)
Definition evaluate (volumeThreshold : Z) (errorThreshold : Q)
    (o : Outcome) (now : Z) (m : Metrics.t) (s : t) : t * bool :=
  match state s with
  | CLOSED =>
      if overThreshold volumeThreshold errorThreshold m
      then (mk OPEN now, true)
      else (s, false)
  | HALF_OPEN =>
      match o with
      | Success => (mk CLOSED now, true)
      | Failure => (mk OPEN now, true)
      end
  | OPEN => (s, false)
  end.
End StateMachine.

(** Modelled from the spec: the facade of section 4.3, missing from the
    sources with the rest of the engine.  The defaults of unset options are
    left open by the specification and are a parameter here. *)
Module Breaker.
Record Config : Type := mkConfig
  { windowDuration : Z;
    numBuckets : Z;
    timeoutDuration : Z;
    errorThreshold : Q;
    volumeThreshold : Z }.

Record t : Type := mk
  { config : Config;
    window : MetricsWindow.t;
    machine : StateMachine.t }.

Definition configure (defaults : Config) (o : Options.t) : Config :=
  {| windowDuration := default (windowDuration defaults) (Options.windowDuration o);
     numBuckets := default (numBuckets defaults) (Options.numBuckets o);
     timeoutDuration := default (timeoutDuration defaults) (Options.timeoutDuration o);
     errorThreshold := default (errorThreshold defaults) (Options.errorThreshold o);
     volumeThreshold := default (volumeThreshold defaults) (Options.volumeThreshold o) |}.

Definition create (defaults : Config) (now : Z) (o : Options.t) : t :=
  let c := configure defaults o in
  {| config := c;
     window := MetricsWindow.create (windowDuration c) (numBuckets c) now;
     machine := StateMachine.initial now |}.

Definition state (b : t) : BreakerState := StateMachine.state (machine b).

(** [attempt(now)]. *)
Definition attempt (now : Z) (b : t) : bool * t :=
  let '(allowed, s) :=
    StateMachine.mayRun (timeoutDuration (config b)) now (machine b) in
  (allowed, mk (config b) (window b) s).

(** [reportSuccess(now)] and [reportFailure(now)]. *)
Definition report (o : Outcome) (now : Z) (b : t) : t * option Metrics.t :=
  let w := MetricsWindow.record o now (window b) in
  let m := MetricsWindow.snapshot w in
  let '(s, changed) :=
    StateMachine.evaluate (volumeThreshold (config b))
      (errorThreshold (config b)) o now m (machine b) in
  (mk (config b) w s, if changed then Some m else None).

Definition engine (defaults : Config) : Engine t :=
  Build_Engine t (create defaults) state attempt report.
End Breaker.

(** ** Observations on traces and histories *)

Definition events (t : trace) : list string :=
  omap (fun a => match a with Emit e _ => Some e | _ => None end) t.

Definition worker_calls (t : trace) : list (list jsarg) :=
  omap (fun a => match a with ApplyWorker args => Some args | _ => None end) t.

Definition callback_calls (t : trace) : list (list jsval) :=
  omap (fun a => match a with ApplyCallback l => Some l | _ => None end) t.

Definition reports (t : trace) : list Outcome :=
  omap (fun a => match a with EngineReport o => Some o | _ => None end) t.

Definition world_after {B A} (r : A * World (B:=B) * trace) : World := snd (fst r).
Definition trace_of {B A} (r : A * World (B:=B) * trace) : trace := snd r.

(** The success or failure a verdict stands for, and the event that
    reports it. *)
Definition outcome_of (verdict : bool) : Outcome :=
  if verdict then Success else Failure.

Definition outcome_event (o : Outcome) : string :=
  match o with Success => "success" | Failure => "failure" end.

(** What happens to one breaker over time: calls of [run], and invocations
    of the completion function of an earlier call by a worker that had
    kept it. *)
Inductive op : Type :=
| Run (now : Z) (worker : Worker) (args : list jsarg) (callback : Callback)
| Done (now : Z) (args : list jsarg) (callback : Callback)
       (arguments : list jsval).

Definition op_time (o : op) : Z :=
  match o with Run now _ _ _ | Done now _ _ _ => now end.

Section History.
Context {B : Type} {E : Engine B}.
Variables service name : string.

Definition perform (o : op) (w : World) : World * trace :=
  match o with
  | Run now worker args callback =>
      let r := run service name worker args callback now w in
      (world_after r, trace_of r)
  | Done now args callback arguments =>
      let r := done service name args callback arguments now w in
      (world_after r, trace_of r)
  end.

Fixpoint perform_all (l : list op) (w : World) : World * trace :=
  match l with
  | [] => (w, [])
  | o :: l' =>
      let '(w1, t1) := perform o w in
      let '(w2, t2) := perform_all l' w1 in
      (w2, t1 ++ t2)
  end.
End History.

(** The payloads, as the event tables of the interface give them. *)
Section Payloads.
Context {B : Type} {E : Engine B}.
Variables service name : string.

Definition call_payload (b : B) (args : list jsarg) : Event.payload :=
  Event.Call (Event.mkCall service name (state_name (_state b)) args).

Definition change_payload (b : B) (duration : option Q) (now : Z)
    (m : Metrics.t) : Event.payload :=
  Event.Change
    (Event.mkChange service name (state_name (_state b)) duration now
       (Metrics.totalCount m) (Metrics.errorCount m)
       (Metrics.errorPercentage m)).

(** The two events of one state change. *)
Definition change_events (b : B) (last : option Z) (now : Z)
    (changed : option Metrics.t) : trace :=
  match changed with
  | Some m =>
      let p := change_payload b (duration_since last now) now m in
      [Emit "stateChange" p; Emit (state_name (_state b)) p]
  | None => []
  end.

Definition last_after (last : option Z) (now : Z)
    (changed : option Metrics.t) : option Z :=
  match changed with Some _ => Some now | None => last end.
End Payloads.

(** The events with their payloads, and the events that report an
    outcome. *)
Definition emitted (t : trace) : list (string * Event.payload) :=
  omap (fun a => match a with Emit e p => Some (e, p) | _ => None end) t.

Definition outcome_events (t : trace) : list string :=
  omap (fun a =>
          match a with
          | Emit e _ =>
              if String.eqb e "success" || String.eqb e "failure"
              then Some e else None
          | _ => None
          end) t.

(** The verdicts of the caller: the values JavaScript takes for false in a
    condition, and the values other than [true] it takes for true. *)
Inductive Falsy : jsval -> Prop :=
| falsy_undefined : Falsy VUndefined
| falsy_null : Falsy VNull
| falsy_zero : Falsy (VNum 0)
| falsy_empty : Falsy (VStr "")
| falsy_NaN : Falsy VNaN
| falsy_false : Falsy (VBool false).

Inductive TruthyNonBoolean : jsval -> Prop :=
| truthy_number n : n <> 0 -> TruthyNonBoolean (VNum n)
| truthy_string s : s <> "" -> TruthyNonBoolean (VStr s)
| truthy_error msg : TruthyNonBoolean (VError msg)
| truthy_object ref : TruthyNonBoolean (VObj ref).

(** ** Scenarios

    Concrete breakers on the engine of the specification.  The defaults
    of unset options are chosen here, the specification leaves them
    open. *)
Module Scenario.
Definition defaults : Breaker.Config :=
  Breaker.mkConfig 10000 10 3000 50 5.

Definition engine : Engine Breaker.t := Breaker.engine defaults.

(** [create("S", "N")] at clock 1000. *)
Definition fresh : World := create (E:=engine) 1000 None.

(** [create("S", "N", {volumeThreshold: 1, errorThreshold: 0})]. *)
Definition sensitive : World :=
  create (E:=engine) 1000
    (Some (Options.mk None None None (Some 0%Q) (Some 1))).

(** Workers: one that calls the completion function once without
    arguments, one that hands it an error, one that never calls it and
    one that calls it twice. *)
Definition sync : Worker := fun _ => [[]].
Definition failing : Worker := fun _ => [[VError "boom"]].
Definition silent : Worker := fun _ => [].
Definition twice : Worker := fun _ => [[]; []].

Definition accept : Callback := fun _ => VBool true.
Definition refuse : Callback := fun _ => VBool false.

Definition run := run (E:=engine) "S" "N".
Definition done := done (E:=engine) "S" "N".

(** [sensitive] after one failing call at clock 1001: the breaker is
    open. *)
Definition opened : World :=
  world_after (run sync [] refuse 1001 sensitive).

(** [opened] after the timeout: the trial call of clock 4001 was
    admitted and its worker has not completed yet. *)
Definition trial : World :=
  world_after (run silent [] accept 4001 opened).

(** [trial] after the worker of the trial call has completed, at clock
    4002, and the callback has returned [true]. *)
Definition recovered : World :=
  world_after (done [] accept [] 4002 trial).

(** A breaker under a clock that starts at zero: created and opened by a
    failing call at clock 0, its trial call admitted at clock 3000. *)
Definition epoch_trial : World :=
  world_after
    (run silent [] accept 3000
       (world_after
          (run sync [] refuse 0
             (create (E:=engine) 0
                (Some (Options.mk None None None (Some 0%Q) (Some 1))))))).
End Scenario.

(** ** Durations, as specified

    The duration of a state change, in the words of the specification: the
    seconds elapsed since the previous state change, [null] when there is
    none. *)
Definition elapsed_seconds (previous : option Z) (now : Z) : option Q :=
  match previous with
  | Some t => Some (inject_Z (now - t) / 1000)%Q
  | None => None
  end.

(** The state-change events of a trace, with their payloads. *)
Definition changes (t : trace) : list (string * Event.payload) :=
  omap (fun a =>
          match a with
          | Emit e (Event.Change c) => Some (e, Event.Change c)
          | _ => None
          end) t.

(** The state changes of a history, read off the engine alone: each
    report that the engine answers with metrics is a state change, at the
    clock of the report. *)
Section Announcements.
Context {B : Type} {E : Engine B}.

Record Announcement : Type := mkAnnouncement
  { an_clock : Z;
    an_engine : B;
    an_metrics : Metrics.t }.

Definition announce (now : Z) (r : B * option Metrics.t)
  : list Announcement :=
  match snd r with
  | Some m => [mkAnnouncement now (fst r) m]
  | None => []
  end.

Fixpoint report_each (callback : Callback) (now : Z)
    (l : list (list jsval)) (b : B) : B * list Announcement :=
  match l with
  | [] => (b, [])
  | a :: l' =>
      let r := report (outcome_of (truthy (callback a))) now b in
      let '(b2, rest) := report_each callback now l' (fst r) in
      (b2, announce now r ++ rest)
  end.

Definition announced_by (o : op) (b : B) : B * list Announcement :=
  match o with
  | Run now worker args callback =>
      let '(allowed, b1) := attempt now b in
      if allowed then report_each callback now (worker args) b1
      else (b1, [])
  | Done now args callback a => report_each callback now [a] b
  end.

Fixpoint announced (ops : list op) (b : B) : B * list Announcement :=
  match ops with
  | [] => (b, [])
  | o :: ops' =>
      let '(b1, l1) := announced_by o b in
      let '(b2, l2) := announced ops' b1 in
      (b2, l1 ++ l2)
  end.

Variables service name : string.

(** The events the state changes call for, in the words of the
    specification: two for each, [stateChange] and the state-named one,
    whose duration is the seconds elapsed since the state change before,
    of either kind, and [null] for the first. *)
Fixpoint change_log (previous : option Z) (l : list Announcement)
  : list (string * Event.payload) :=
  match l with
  | [] => []
  | a :: l' =>
      let p := Event.Change
                 {| Event.service := service;
                    Event.name := name;
                    Event.state := state_name (_state (an_engine a));
                    Event.duration := elapsed_seconds previous (an_clock a);
                    Event.time := an_clock a;
                    Event.totalCount := Metrics.totalCount (an_metrics a);
                    Event.errorCount := Metrics.errorCount (an_metrics a);
                    Event.errorPercentage :=
                      Metrics.errorPercentage (an_metrics a) |} in
      ("stateChange", p) :: (state_name (_state (an_engine a)), p)
        :: change_log (Some (an_clock a)) l'
  end.

(** No state change with a successor was recorded at clock zero. *)
Fixpoint recorded_nonzero (previous : option Z) (l : list Announcement)
  : Prop :=
  match l with
  | [] => True
  | a :: l' => previous <> Some 0 /\ recorded_nonzero (Some (an_clock a)) l'
  end.

Fixpoint last_clock (previous : option Z) (l : list Announcement)
  : option Z :=
  match l with
  | [] => previous
  | a :: l' => last_clock (Some (an_clock a)) l'
  end.

(** A step from [w] to [w'] with trace [t] follows the state changes
    [res] of the engine. *)
Definition tracks (w w' : World (B:=B)) (t : trace)
    (res : B * list Announcement) : Prop :=
  breaker w' = fst res
  /\ lastStateChange w' = last_clock (lastStateChange w) (snd res)
  /\ (recorded_nonzero (lastStateChange w) (snd res) ->
      changes t = change_log (lastStateChange w) (snd res)).

End Announcements.

(** ** Histories of an open breaker *)

(** The calls of [run] in a history are made before [deadline]. *)
Definition before (deadline : Z) (o : op) : Prop :=
  match o with
  | Run now _ _ _ => now < deadline
  | Done _ _ _ _ => True
  end.

Definition runs (l : list op) : nat :=
  length (omap (fun o => match o with Run _ _ _ _ => Some tt | _ => None end) l).

(** The events that tell how the admission check of a call went. *)
Definition admissions (t : trace) : list string :=
  omap (fun a =>
          match a with
          | Emit e _ =>
              if String.eqb e "run" || String.eqb e "rejected"
              then Some e else None
          | _ => None
          end) t.

(** ** Event schemas and counts *)

(** The events of [emitWithArgs] and the names [getState] gives to the
    states of the engine. *)
Definition call_names : list string := ["run"; "success"; "failure"; "rejected"].
Definition state_names : list string := ["open"; "halfOpen"; "closed"].

(** An event as a listener of a breaker created for [service] and [name]
    expects it: a call event with the call payload, or a state-change
    payload under the name [stateChange] or under the name of its own
    state. *)
Definition well_formed (service name : string)
    (ev : string * Event.payload) : Prop :=
  match ev with
  | (e, Event.Call c) =>
      In e call_names
      /\ Event.c_service c = service /\ Event.c_name c = name
      /\ In (Event.c_state c) state_names
  | (e, Event.Change c) =>
      (e = "stateChange" \/ e = Event.state c)
      /\ Event.service c = service /\ Event.name c = name
      /\ In (Event.state c) state_names
  end.

(** How many times an event was emitted. *)
Definition count_event (event : string) (t : trace) : nat :=
  length (omap (fun a =>
                  match a with
                  | Emit e _ => if String.eqb e event then Some tt else None
                  | _ => None
                  end) t).

(** The [time] fields of the [stateChange] events, in order, and the time
    of the latest one, [initial] when there is none. *)
Definition change_times (t : trace) : list Z :=
  omap (fun a =>
          match a with
          | Emit e (Event.Change c) =>
              if String.eqb e "stateChange" then Some (Event.time c) else None
          | _ => None
          end) t.

Definition latest (initial : option Z) (t : trace) : option Z :=
  match last (change_times t) with
  | Some x => Some x
  | None => initial
  end.

(** ** Equations of the wrapper *)

Section Equations.
Context {B : Type} {E : Engine B}.
Variables service name : string.

Lemma emitStateChange_eq (m : Metrics.t) (now : Z) (w : World) :
  emitStateChange service name m now w =
  (tt, mkWorld (breaker w) (Some now),
   change_events service name (breaker w) (lastStateChange w) now (Some m)).
Proof. reflexivity. Qed.

Lemma engine_report_eq (o : Outcome) (now : Z) (w : World) :
  engine_report service name o now w =
  let b' := fst (report o now (breaker w)) in
  let changed := snd (report o now (breaker w)) in
  (tt, mkWorld b' (last_after (lastStateChange w) now changed),
   EngineReport o
     :: change_events service name b' (lastStateChange w) now changed).
Proof.
  unfold engine_report, bind, log, get_breaker, Date_now; simpl.
  destruct (report o now (breaker w)) as [b' [m|]]; reflexivity.
Qed.

Lemma done_eq (args : list jsarg) (callback : Callback)
    (arguments : list jsval) (now : Z) (w : World) :
  done service name args callback arguments now w =
  let o := outcome_of (truthy (callback arguments)) in
  let b' := fst (report o now (breaker w)) in
  let changed := snd (report o now (breaker w)) in
  (tt, mkWorld b' (last_after (lastStateChange w) now changed),
   ApplyCallback arguments :: EngineReport o
     :: change_events service name b' (lastStateChange w) now changed
     ++ [Emit (outcome_event o) (call_payload service name b' args)]).
Proof.
  unfold done, bind at 1, apply_callback, bind at 1, log, ret; simpl.
  destruct (truthy (callback arguments)); simpl;
    unfold bind, success, failure; rewrite engine_report_eq; simpl;
    reflexivity.
Qed.
End Equations.

Section RunEquations.
Context {B : Type} {E : Engine B}.
Variables service name : string.

Lemma forEach_cons {A} (f : A -> M (B:=B) unit) (x : A) (l : list A)
    (now : Z) (w : World) :
  forEach f (x :: l) now w =
  (tt, world_after (forEach f l now (world_after (f x now w))),
   trace_of (f x now w)
     ++ trace_of (forEach f l now (world_after (f x now w)))).
Proof.
  simpl. unfold bind, world_after, trace_of.
  destruct (f x now w) as [[[] w1] t1]; simpl.
  destruct (forEach f l now w1) as [[[] w2] t2]; reflexivity.
Qed.

Lemma run_eq (worker : Worker) (args : list jsarg) (callback : Callback)
    (now : Z) (w : World) :
  run service name worker args callback now w =
  let b1 := snd (attempt now (breaker w)) in
  let w1 := mkWorld b1 (lastStateChange w) in
  if fst (attempt now (breaker w)) then
    let r := forEach (done service name args callback) (worker args) now w1 in
    (tt, world_after r,
     Emit "run" (call_payload service name b1 args)
       :: ApplyWorker args :: trace_of r)
  else
    (tt, w1,
     [Emit "rejected" (call_payload service name b1 args);
      ApplyCallback
        [VError ("Service Unavailable: " +:+ service +:+ " (" +:+ name +:+ ")")]]).
Proof.
  unfold run, breaker_run, bind at 1, get_breaker, bind at 1, Date_now.
  destruct (attempt now (breaker w)) as [[|] b1]; simpl.
  - unfold bind, set_breaker, apply_worker, bind, log, emitWithArgs, bind,
      getState, bind, get_breaker, ret, log, world_after, trace_of; simpl.
    destruct (forEach _ _ _ _) as [[[] w2] t2]; reflexivity.
  - reflexivity.
Qed.

Lemma change_events_quiet (b : B) (last : option Z) (now : Z)
    (changed : option Metrics.t) :
  worker_calls (change_events service name b last now changed) = []
  /\ callback_calls (change_events service name b last now changed) = []
  /\ reports (change_events service name b last now changed) = [].
Proof. destruct changed; repeat split; reflexivity. Qed.

Lemma done_observed (args : list jsarg) (callback : Callback)
    (arguments : list jsval) (now : Z) (w : World) :
  let t := trace_of (done service name args callback arguments now w) in
  worker_calls t = []
  /\ callback_calls t = [arguments]
  /\ reports t = [outcome_of (truthy (callback arguments))].
Proof.
  rewrite done_eq; unfold trace_of; simpl.
  unfold worker_calls, callback_calls, reports; simpl.
  rewrite !omap_app.
  destruct (change_events_quiet
              (fst (report (outcome_of (truthy (callback arguments))) now
                      (breaker w)))
              (lastStateChange w) now
              (snd (report (outcome_of (truthy (callback arguments))) now
                      (breaker w)))) as (Hw & Hc & Hr).
  unfold worker_calls, callback_calls, reports in Hw, Hc, Hr.
  rewrite Hw, Hc, Hr. repeat split; reflexivity.
Qed.

(** The completion function applies the callback once for each of its
    invocations, to the arguments of that invocation. *)
Lemma forEach_done_observed (args : list jsarg) (callback : Callback)
    (l : list (list jsval)) (now : Z) (w : World) :
  let t := trace_of (forEach (done service name args callback) l now w) in
  worker_calls t = []
  /\ callback_calls t = l
  /\ reports t = map (fun a => outcome_of (truthy (callback a))) l.
Proof.
  revert w. induction l as [|a l IH]; intros w.
  - repeat split; reflexivity.
  - rewrite forEach_cons. unfold trace_of at 1; simpl.
    destruct (done_observed args callback a now w) as (Hw & Hc & Hr).
    destruct (IH (world_after (done service name args callback a now w)))
      as (Hw' & Hc' & Hr').
    unfold worker_calls, callback_calls, reports in *.
    rewrite !omap_app, Hw, Hc, Hr, Hw', Hc', Hr'.
    repeat split; reflexivity.
Qed.
End RunEquations.

Lemma Falsy_truthy (v : jsval) : Falsy v -> truthy v = false.
Proof. destruct 1; reflexivity. Qed.

Lemma TruthyNonBoolean_truthy (v : jsval) :
  TruthyNonBoolean v -> truthy v = true.
Proof.
  destruct 1 as [n Hn|s Hs| |]; simpl; try reflexivity.
  - apply negb_true_iff, Z.eqb_neq, Hn.
  - apply negb_true_iff, String.eqb_neq, Hs.
Qed.

(** ** Properties of [run] *)

Section RunProperties.
Context {B : Type} {E : Engine B}.
Variables service name : string.

(** C1, as amended.  The callback is applied once by a rejected call, and
    by an admitted call once for each invocation of the completion function
    by the worker: exactly once when the worker completes exactly once. *)
Theorem run_callback_count (worker : Worker) (args : list jsarg)
    (callback : Callback) (now : Z) (w : World) :
  length (callback_calls
            (trace_of (run service name worker args callback now w))) =
  if fst (attempt now (breaker w)) then length (worker args) else 1%nat.
Proof.
  rewrite run_eq. cbv zeta.
  destruct (fst (attempt now (breaker w))).
  - unfold trace_of at 1; simpl.
    destruct (forEach_done_observed service name args callback (worker args)
                now (mkWorld (snd (attempt now (breaker w)))
                       (lastStateChange w))) as (_ & Hc & _).
    unfold callback_calls in *. rewrite Hc. reflexivity.
  - reflexivity.
Qed.

(** C2.  A rejected call never applies the worker, reports no outcome to
    the engine, emits the one event [rejected], and applies the callback
    once, to an error with the message
    [Service Unavailable: <service> (<name>)]; the engine is left as the
    admission check left it. *)
Theorem run_rejected (worker : Worker) (args : list jsarg)
    (callback : Callback) (now : Z) (w : World) :
  fst (attempt now (breaker w)) = false ->
  let r := run service name worker args callback now w in
  worker_calls (trace_of r) = []
  /\ reports (trace_of r) = []
  /\ events (trace_of r) = ["rejected"]
  /\ callback_calls (trace_of r) =
       [[VError ("Service Unavailable: " +:+ service +:+ " (" +:+ name +:+ ")")]]
  /\ breaker (world_after r) = snd (attempt now (breaker w)).
Proof.
  intros Hrej r. subst r. rewrite run_eq. cbv zeta. rewrite Hrej.
  repeat split; reflexivity.
Qed.

(** C3.  The completion function applies the callback to exactly the
    arguments it received, whatever they are; a callback that returns
    [true] has a success reported to the engine and [success] emitted, one
    that returns [false] has a failure reported and [failure] emitted. *)
Theorem done_verdict (args : list jsarg) (callback : Callback)
    (arguments : list jsval) (now : Z) (w : World) (verdict : bool) :
  callback arguments = VBool verdict ->
  let r := done service name args callback arguments now w in
  let o := if verdict then Success else Failure in
  callback_calls (trace_of r) = [arguments]
  /\ reports (trace_of r) = [o]
  /\ breaker (world_after r) = fst (report o now (breaker w))
  /\ outcome_events (trace_of r) = [if verdict then "success" else "failure"].
Proof.
  intros Hv r o. subst r o.
  destruct (done_observed service name args callback arguments now w)
    as (_ & Hc & Hr).
  rewrite Hv in Hr. simpl in Hr.
  split; [exact Hc|]. split; [destruct verdict; exact Hr|].
  rewrite done_eq, Hv. simpl truthy.
  split; [destruct verdict; reflexivity|].
  unfold trace_of; cbv zeta; simpl snd.
  unfold outcome_events. simpl omap. rewrite omap_app.
  destruct (snd (report (outcome_of verdict) now (breaker w))) as [m|];
    destruct verdict; simpl;
    try (destruct (_state _)); reflexivity.
Qed.

(** C9.  The verdict is the truthiness of what the callback returns:
    [undefined], [null], [0], the empty string, [NaN] and [false] report a
    failure and emit [failure]; a number other than zero, a string other
    than the empty one, an error or an object report a success and emit
    [success]. *)
Theorem done_truthiness (args : list jsarg) (callback : Callback)
    (arguments : list jsval) (now : Z) (w : World) :
  let r := done service name args callback arguments now w in
  (Falsy (callback arguments) ->
     reports (trace_of r) = [Failure]
     /\ outcome_events (trace_of r) = ["failure"]
     /\ breaker (world_after r) = fst (report Failure now (breaker w)))
  /\ (TruthyNonBoolean (callback arguments) ->
     reports (trace_of r) = [Success]
     /\ outcome_events (trace_of r) = ["success"]
     /\ breaker (world_after r) = fst (report Success now (breaker w))).
Proof.
  intros r. subst r.
  destruct (done_observed service name args callback arguments now w)
    as (_ & _ & Hr).
  split; intros Hv;
    [apply Falsy_truthy in Hv | apply TruthyNonBoolean_truthy in Hv];
    rewrite Hv in Hr; (split; [exact Hr|]);
    rewrite done_eq, Hv; cbv zeta; unfold trace_of, world_after; simpl;
    (split; [|reflexivity]);
    unfold outcome_events; rewrite omap_app;
    match goal with
    | |- context [snd (report ?o now (breaker w))] =>
        destruct (snd (report o now (breaker w))) as [m|]
    end; simpl; try (destruct (_state _)); reflexivity.
Qed.

(** C10.  When the report of an outcome makes the engine announce a state
    change, [stateChange] and the state-named event are emitted before the
    [success] or [failure] of the call, and that event carries the state
    after the transition. *)
Theorem done_state_change_first (args : list jsarg) (callback : Callback)
    (arguments : list jsval) (now : Z) (w : World) (b' : B) (m : Metrics.t) :
  let o := outcome_of (truthy (callback arguments)) in
  report o now (breaker w) = (b', Some m) ->
  emitted (trace_of (done service name args callback arguments now w)) =
  [("stateChange",
    change_payload service name b'
      (duration_since (lastStateChange w) now) now m);
   (state_name (_state b'),
    change_payload service name b'
      (duration_since (lastStateChange w) now) now m);
   (outcome_event o,
    Event.Call (Event.mkCall service name (state_name (_state b')) args))].
Proof.
  intros o Hrep. subst o. rewrite done_eq. cbv zeta. rewrite Hrep.
  reflexivity.
Qed.

(** C4, as amended.  A rejected call emits [rejected] alone, so [run] is
    emitted only by an admitted call, and the state in the payload is the
    one the admission check left.  An admitted call whose worker completes
    once emits [run] before the worker is applied, then, if the report
    makes the engine announce a state change, [stateChange] and the
    state-named event, then [success] or [failure] by the verdict; without
    a state change the events are [run] and [success], or [run] and
    [failure]. *)
Theorem run_events (worker : Worker) (args : list jsarg)
    (callback : Callback) (now : Z) (w : World) :
  let b1 := snd (attempt now (breaker w)) in
  let t := trace_of (run service name worker args callback now w) in
  (fst (attempt now (breaker w)) = false ->
     emitted t = [("rejected", call_payload service name b1 args)])
  /\ (fst (attempt now (breaker w)) = true ->
      forall (arguments : list jsval) (verdict : bool),
        worker args = [arguments] ->
        callback arguments = VBool verdict ->
        let o := if verdict then Success else Failure in
        let b2 := fst (report o now b1) in
        let changed := snd (report o now b1) in
        t = Emit "run" (call_payload service name b1 args)
              :: ApplyWorker args
              :: ApplyCallback arguments
              :: EngineReport o
              :: change_events service name b2 (lastStateChange w) now changed
              ++ [Emit (if verdict then "success" else "failure")
                    (call_payload service name b2 args)]
        /\ events t =
             "run"
               :: match changed with
                  | Some _ => ["stateChange"; state_name (_state b2)]
                  | None => []
                  end
               ++ [if verdict then "success" else "failure"]).
Proof.
  intros b1 t. subst b1 t. rewrite run_eq. cbv zeta. split; intros Hadm.
  - rewrite Hadm. reflexivity.
  - intros arguments verdict Hw Hv. rewrite Hadm, Hw.
    rewrite forEach_cons. unfold trace_of. simpl snd.
    rewrite done_eq, Hv. cbv zeta. simpl snd. simpl truthy.
    unfold forEach, ret. simpl snd. rewrite app_nil_r.
    assert (Ho : outcome_of verdict = if verdict then Success else Failure)
      by reflexivity.
    assert (He : outcome_event (outcome_of verdict) =
                 if verdict then "success" else "failure")
      by (destruct verdict; reflexivity).
    rewrite He, Ho. split; [reflexivity|].
    unfold events. simpl omap. rewrite omap_app.
    destruct (snd (report _ now _)); reflexivity.
Qed.

End RunProperties.

(** C1, as stated, fails: an admitted call whose worker never completes
    never applies the callback, and one whose worker completes twice
    applies it twice. *)
Lemma callback_not_once :
  fst (attempt (Engine:=Scenario.engine) 1001 (breaker Scenario.fresh)) = true
  /\ length (callback_calls (trace_of
       (Scenario.run Scenario.silent [] Scenario.accept 1001 Scenario.fresh)))
     = 0%nat
  /\ length (callback_calls (trace_of
       (Scenario.run Scenario.twice [] Scenario.accept 1001 Scenario.fresh)))
     = 2%nat.
Proof. repeat split; reflexivity. Qed.

Lemma run_rejected_witness :
  events (trace_of
    (Scenario.run Scenario.sync [] Scenario.refuse 1002 Scenario.opened))
    = ["rejected"]
  /\ callback_calls (trace_of
       (Scenario.run Scenario.sync [] Scenario.refuse 1002 Scenario.opened))
     = [[VError "Service Unavailable: S (N)"]].
Proof.
  pose proof (run_rejected (E:=Scenario.engine) "S" "N" Scenario.sync []
                Scenario.refuse 1002 Scenario.opened eq_refl) as P.
  cbv zeta in P. destruct P as (_ & _ & He & Hc & _).
  split; [exact He | exact Hc].
Defined.

Lemma done_verdict_witness :
  callback_calls (trace_of
    (Scenario.done [] Scenario.accept [VError "boom"] 1001 Scenario.fresh))
    = [[VError "boom"]]
  /\ reports (trace_of
       (Scenario.done [] Scenario.accept [VError "boom"] 1001 Scenario.fresh))
     = [Success].
Proof.
  pose proof (done_verdict (E:=Scenario.engine) "S" "N" [] Scenario.accept
                [VError "boom"] 1001 Scenario.fresh true eq_refl) as P.
  cbv zeta in P. destruct P as (Hc & Hr & _).
  split; [exact Hc | exact Hr].
Defined.

Lemma done_truthiness_witness :
  reports (trace_of
    (Scenario.done [] (fun _ => VUndefined) [] 1001 Scenario.fresh))
    = [Failure]
  /\ reports (trace_of
       (Scenario.done [] (fun _ => VStr "ok") [] 1001 Scenario.fresh))
     = [Success].
Proof.
  split.
  - apply (done_truthiness (E:=Scenario.engine) "S" "N" []
             (fun _ => VUndefined) [] 1001 Scenario.fresh).
    exact falsy_undefined.
  - apply (done_truthiness (E:=Scenario.engine) "S" "N" []
             (fun _ => VStr "ok") [] 1001 Scenario.fresh).
    apply truthy_string. discriminate.
Defined.

Lemma done_state_change_first_witness :
  events (trace_of
    (Scenario.done [] Scenario.refuse [] 1001 Scenario.sensitive))
    = ["stateChange"; "open"; "failure"]
  /\ map snd (emitted (trace_of
       (Scenario.done [] Scenario.refuse [] 1001 Scenario.sensitive)))
       !! 2%nat
     = Some (Event.Call (Event.mkCall "S" "N" "open" [])).
Proof.
  pose proof (done_state_change_first (E:=Scenario.engine) "S" "N" []
                Scenario.refuse [] 1001 Scenario.sensitive
                _ _ eq_refl) as P.
  split.
  - change (map fst (emitted (trace_of
      (Scenario.done [] Scenario.refuse [] 1001 Scenario.sensitive)))
      = ["stateChange"; "open"; "failure"]).
    unfold Scenario.done. rewrite P. reflexivity.
  - unfold Scenario.done. rewrite P. reflexivity.
Defined.

(** C4, as stated, fails: the first failing call of a breaker with
    [volumeThreshold] 1 and [errorThreshold] 0 is admitted, its worker
    completes once, its callback returns [false], and four events are
    emitted. *)
Lemma run_failure_not_two_events :
  fst (attempt (Engine:=Scenario.engine) 1001 (breaker Scenario.sensitive))
    = true
  /\ events (trace_of
       (Scenario.run Scenario.sync [] Scenario.refuse 1001 Scenario.sensitive))
     = ["run"; "stateChange"; "open"; "failure"]
  /\ events (trace_of
       (Scenario.run Scenario.sync [] Scenario.refuse 1001 Scenario.sensitive))
     <> ["run"; "failure"].
Proof. repeat split; try reflexivity. vm_compute. discriminate. Qed.

Lemma run_events_witness :
  events (trace_of
    (Scenario.run Scenario.sync [] Scenario.accept 1001 Scenario.fresh))
    = ["run"; "success"]
  /\ emitted (trace_of
       (Scenario.run Scenario.sync [] Scenario.refuse 1002 Scenario.opened))
     = [("rejected", Event.Call (Event.mkCall "S" "N" "open" []))].
Proof.
  pose proof (run_events (E:=Scenario.engine) "S" "N" Scenario.sync []
                Scenario.accept 1001 Scenario.fresh) as P.
  pose proof (run_events (E:=Scenario.engine) "S" "N" Scenario.sync []
                Scenario.refuse 1002 Scenario.opened) as R.
  cbv zeta in P, R. split.
  - destruct P as (_ & P).
    destruct (P eq_refl [] true eq_refl eq_refl) as (_ & He). exact He.
  - destruct R as (R & _). exact (R eq_refl).
Defined.

(** ** State changes *)

(** C7, as amended.  When the report of an outcome makes the engine
    announce a state change, exactly two events are emitted, with the same
    payload, [stateChange] first and the state-named event next; on the
    engine of the specification the state named is [open] or [closed]. *)
Theorem state_change_events :
  (forall (B : Type) (E : Engine B) (service name : string) (o : Outcome)
          (now : Z) (w : World) (b' : B) (m : Metrics.t),
      report o now (breaker w) = (b', Some m) ->
      let p := Event.Change
                 {| Event.service := service;
                    Event.name := name;
                    Event.state := state_name (_state b');
                    Event.duration := duration_since (lastStateChange w) now;
                    Event.time := now;
                    Event.totalCount := Metrics.totalCount m;
                    Event.errorCount := Metrics.errorCount m;
                    Event.errorPercentage := Metrics.errorPercentage m |} in
      emitted (trace_of (engine_report service name o now w)) =
      [("stateChange", p); (state_name (_state b'), p)])
  /\ (forall (o : Outcome) (now : Z) (b b' : Breaker.t) (m : Metrics.t),
      Breaker.report o now b = (b', Some m) ->
      Breaker.state b' = OPEN \/ Breaker.state b' = CLOSED).
Proof.
  split.
  - intros B E service name o now w b' m Hrep p. subst p.
    rewrite engine_report_eq. cbv zeta. rewrite Hrep. reflexivity.
  - intros o now b b' m. unfold Breaker.report, StateMachine.evaluate.
    destruct (StateMachine.state (Breaker.machine b)).
    + discriminate.
    + destruct o; intros [= <- _]; [right | left]; reflexivity.
    + destruct (StateMachine.overThreshold _ _ _); [|discriminate].
      intros [= <- _]; left; reflexivity.
Qed.

Lemma state_change_events_witness :
  events (trace_of
    (engine_report (E:=Scenario.engine) "S" "N" Failure 1001 Scenario.sensitive))
  = ["stateChange"; "open"].
Proof.
  destruct state_change_events as (P & _).
  specialize (P _ Scenario.engine "S" "N" Failure 1001 Scenario.sensitive
                _ _ eq_refl).
  cbv zeta in P.
  change (map fst (emitted (trace_of
    (engine_report (E:=Scenario.engine) "S" "N" Failure 1001
       Scenario.sensitive))) = ["stateChange"; "open"]).
  rewrite P. reflexivity.
Defined.

(** C7, as stated, fails: the breaker of the scenario goes from closed to
    open, and [stateChange] is emitted before [open], not after. *)
Lemma state_named_event_not_first :
  Breaker.state (breaker Scenario.sensitive) = CLOSED
  /\ Breaker.state (breaker (world_after
       (engine_report (E:=Scenario.engine) "S" "N" Failure 1001
          Scenario.sensitive))) = OPEN
  /\ events (trace_of
       (engine_report (E:=Scenario.engine) "S" "N" Failure 1001
          Scenario.sensitive))
     <> ["open"; "stateChange"].
Proof. repeat split; try reflexivity. vm_compute. discriminate. Qed.

(** ** [emitter.run] and [emitter.wrap] *)

Lemma pop_app (l : list jsarg) (x : jsarg) : pop (l ++ [x]) = (l, Some x).
Proof.
  induction l as [|a l IH]; [reflexivity|].
  change (pop ((a :: l) ++ [x])) with
    (match l ++ [x] with
     | [] => ([], Some a)
     | _ :: _ => let '(r, last) := pop (l ++ [x]) in (a :: r, last)
     end).
  rewrite IH. destruct l; reflexivity.
Qed.

(** C6.  [wrap(fn, a1..aN)] keeps the arguments, and its [run(cb)] is the
    computation of [run(fn, a1..aN, cb)]: in every world and at every
    clock the worker is applied to the same arguments, the same events
    are emitted, and the same world is left. *)
Theorem wrap_run_same {B : Type} {E : Engine B} (service name : string)
    (worker : Worker) (args : list jsarg) (callback : Callback) :
  wrapped_args (emitter_wrap service name worker args) = args
  /\ exists direct : M unit,
       emitter_run service name worker (args ++ [Fn callback]) = Some direct
       /\ forall (now : Z) (w : World),
            let deferred :=
              wrapped_run (emitter_wrap service name worker args) callback in
            worker_calls (trace_of (deferred now w))
              = worker_calls (trace_of (direct now w))
            /\ emitted (trace_of (deferred now w))
               = emitted (trace_of (direct now w))
            /\ deferred now w = direct now w.
Proof.
  split; [reflexivity|].
  exists (run service name worker args callback). split.
  - unfold emitter_run. rewrite pop_app. reflexivity.
  - intros now w deferred. subst deferred. repeat split; reflexivity.
Qed.

(** ** Durations of state changes *)

Section Durations.
Context {B : Type} {E : Engine B}.
Variables service name : string.

Lemma duration_since_elapsed (last : option Z) (now : Z) :
  last <> Some 0 -> duration_since last now = elapsed_seconds last now.
Proof.
  destruct last as [t|]; [|reflexivity]. intros Ht. simpl.
  destruct (Z.eqb_spec t 0) as [->|_]; [contradiction | reflexivity].
Qed.

Lemma last_clock_app (p : option Z) (l1 l2 : list (Announcement (B:=B))) :
  last_clock p (l1 ++ l2) = last_clock (last_clock p l1) l2.
Proof. revert p. induction l1 as [|a l1 IH]; intros p; [reflexivity|apply IH]. Qed.

Lemma change_log_app (p : option Z) (l1 l2 : list Announcement) :
  change_log service name p (l1 ++ l2) =
  change_log service name p l1
  ++ change_log service name (last_clock p l1) l2.
Proof.
  revert p. induction l1 as [|a l1 IH]; intros p; [reflexivity|].
  simpl. rewrite IH. reflexivity.
Qed.

Lemma recorded_nonzero_app (p : option Z)
    (l1 l2 : list (Announcement (B:=B))) :
  recorded_nonzero p (l1 ++ l2) ->
  recorded_nonzero p l1 /\ (l2 = [] \/ recorded_nonzero (last_clock p l1) l2).
Proof.
  revert p. induction l1 as [|a l1 IH]; intros p; simpl.
  - intros Hn. split; [exact I | right; exact Hn].
  - intros [Hp Hn]. destruct (IH _ Hn) as [H1 H2].
    split; [split; assumption | exact H2].
Qed.

Lemma tracks_app (w w1 w2 : World) (t1 t2 : trace) (b1 b2 : B)
    (l1 l2 : list Announcement) :
  tracks service name w w1 t1 (b1, l1) ->
  tracks service name w1 w2 t2 (b2, l2) ->
  tracks service name w w2 (t1 ++ t2) (b2, l1 ++ l2).
Proof.
  intros (Hb1 & Hl1 & Hc1) (Hb2 & Hl2 & Hc2). unfold tracks.
  cbn [fst snd] in *.
  split; [exact Hb2|]. split.
  - rewrite last_clock_app, <- Hl1. exact Hl2.
  - intros Hn. apply recorded_nonzero_app in Hn as [Hn1 Hn2].
    unfold changes in *. rewrite omap_app, change_log_app, (Hc1 Hn1).
    f_equal. rewrite <- Hl1.
    destruct Hn2 as [-> | Hn2].
    + apply Hc2. exact I.
    + apply Hc2. rewrite Hl1. exact Hn2.
Qed.

(** One invocation of the completion function follows the one report it
    makes. *)
Lemma done_tracks (args : list jsarg) (callback : Callback)
    (a : list jsval) (now : Z) (w : World) :
  let r := report (outcome_of (truthy (callback a))) now (breaker w) in
  tracks service name w
    (world_after (done service name args callback a now w))
    (trace_of (done service name args callback a now w))
    (fst r, announce now r).
Proof.
  intros r. subst r. rewrite done_eq. cbv zeta.
  unfold tracks, world_after, trace_of, announce. cbn [fst snd].
  destruct (snd (report _ now (breaker w))) as [m|]; cbn [fst snd].
  - split; [reflexivity|]. split; [reflexivity|].
    intros [Hp _]. unfold changes. simpl.
    rewrite (duration_since_elapsed _ _ Hp). reflexivity.
  - split; [reflexivity|]. split; [reflexivity|]. intros _. reflexivity.
Qed.

Lemma forEach_done_tracks (args : list jsarg) (callback : Callback)
    (l : list (list jsval)) (now : Z) (w : World) :
  tracks service name w
    (world_after (forEach (done service name args callback) l now w))
    (trace_of (forEach (done service name args callback) l now w))
    (report_each callback now l (breaker w)).
Proof.
  revert w. induction l as [|a l IH]; intros w.
  - repeat split.
  - rewrite forEach_cons.
    pose proof (done_tracks args callback a now w) as Hd. cbv zeta in Hd.
    specialize (IH (world_after (done service name args callback a now w))).
    destruct Hd as (Hb & Hd'). pose proof (conj Hb Hd') as Hd.
    cbn [fst] in Hb. rewrite Hb in IH.
    simpl report_each.
    destruct (report_each callback now l
                (fst (report (outcome_of (truthy (callback a))) now
                        (breaker w)))) as [b2 rest].
    exact (tracks_app _ _ _ _ _ _ _ _ _ Hd IH).
Qed.

Lemma perform_tracks (o : op) (w : World) :
  tracks service name w (fst (perform service name o w))
    (snd (perform service name o w)) (announced_by o (breaker w)).
Proof.
  destruct o as [now worker args callback | now args callback a]; simpl.
  - rewrite run_eq. cbv zeta.
    destruct (attempt now (breaker w)) as [[|] b1]; cbn [fst snd].
    + pose proof (forEach_done_tracks args callback (worker args) now
                    (mkWorld b1 (lastStateChange w))) as Hf.
      destruct Hf as (Hb & Hl & Hc). cbn [breaker lastStateChange] in *.
      unfold world_after at 1, trace_of at 1. cbn [fst snd].
      split; [exact Hb|]. split; [exact Hl|]. exact Hc.
    + unfold world_after, trace_of. repeat split.
  - pose proof (forEach_done_tracks args callback [a] now w) as Hf.
    rewrite forEach_cons in Hf.
    unfold forEach, ret, world_after at 1, trace_of at 1 in Hf.
    cbn [fst snd] in Hf. unfold world_after at 1, trace_of at 3 in Hf.
    cbn [fst snd] in Hf. rewrite app_nil_r in Hf. exact Hf.
Qed.

Lemma perform_all_tracks (l : list op) (w : World) :
  tracks service name w (fst (perform_all service name l w))
    (snd (perform_all service name l w)) (announced l (breaker w)).
Proof.
  revert w. induction l as [|o l IH]; intros w; [repeat split|].
  simpl perform_all. simpl announced.
  pose proof (perform_tracks o w) as Ho.
  destruct (perform service name o w) as [w1 t1]. cbn [fst snd] in Ho.
  specialize (IH w1).
  destruct (perform_all service name l w1) as [w2 t2]. cbn [fst snd] in *.
  destruct (announced_by o (breaker w)) as [b1 l1].
  assert (Hb : breaker w1 = b1) by apply Ho. rewrite Hb in IH.
  destruct (announced l b1) as [b2 l2].
  exact (tracks_app _ _ _ _ _ _ _ _ _ Ho IH).
Qed.


End Durations.



(** The durations of a history under a clock after the epoch: the breaker
    opens at 1001 and closes at 4001, three seconds later. *)
Example durations_of_scenario :
  omap (fun x => match snd x with
                 | Event.Change e => Some (fst x, Event.duration e)
                 | Event.Call _ => None
                 end)
    (emitted (snd (perform_all (E:=Scenario.engine) "S" "N"
            [Run 1001 Scenario.sync [] Scenario.refuse;
             Run 4001 Scenario.sync [] Scenario.accept]
            Scenario.sensitive)))
  = [("stateChange", None); ("open", None);
     ("stateChange", Some (inject_Z 3000 / 1000)%Q);
     ("closed", Some (inject_Z 3000 / 1000)%Q)].
Proof. reflexivity. Qed.

(** ** The thresholds of the engine *)

Section Thresholds.
Variable defaults : Breaker.Config.
Variables service name : string.

Lemma report_window (o : Outcome) (now : Z) (b : Breaker.t) :
  Breaker.window (fst (Breaker.report o now b)) =
  MetricsWindow.record o now (Breaker.window b).
Proof.
  unfold Breaker.report. destruct (StateMachine.evaluate _ _ _ _ _ _).
  reflexivity.
Qed.

Lemma report_machine (o : Outcome) (now : Z) (b : Breaker.t) :
  Breaker.machine (fst (Breaker.report o now b)) =
  fst (StateMachine.evaluate (Breaker.volumeThreshold (Breaker.config b))
         (Breaker.errorThreshold (Breaker.config b)) o now
         (MetricsWindow.snapshot
            (MetricsWindow.record o now (Breaker.window b)))
         (Breaker.machine b)).
Proof.
  unfold Breaker.report. destruct (StateMachine.evaluate _ _ _ _ _ _).
  reflexivity.
Qed.

Lemma report_open (o : Outcome) (now : Z) (b : Breaker.t) :
  Breaker.state b = OPEN ->
  Breaker.config (fst (Breaker.report o now b)) = Breaker.config b
  /\ Breaker.machine (fst (Breaker.report o now b)) = Breaker.machine b
  /\ snd (Breaker.report o now b) = None.
Proof.
  unfold Breaker.state, Breaker.report, StateMachine.evaluate.
  intros ->. repeat split; reflexivity.
Qed.

Lemma attempt_open (now : Z) (b : Breaker.t) :
  Breaker.state b = OPEN ->
  now < StateMachine.enteredAt (Breaker.machine b)
        + Breaker.timeoutDuration (Breaker.config b) ->
  Breaker.attempt now b = (false, b).
Proof.
  unfold Breaker.state, Breaker.attempt, StateMachine.mayRun.
  intros -> Hnow.
  destruct (Z.leb_spec (Breaker.timeoutDuration (Breaker.config b))
              (now - StateMachine.enteredAt (Breaker.machine b))); [lia|].
  destruct b; reflexivity.
Qed.

(** One step of a history on an open breaker whose timeout has not
    elapsed: a call of [run] is rejected, a late completion is recorded,
    and the breaker stays open with the same timer. *)
Lemma perform_open (o : op) (w : World) :
  Breaker.state (breaker w) = OPEN ->
  before (StateMachine.enteredAt (Breaker.machine (breaker w))
          + Breaker.timeoutDuration (Breaker.config (breaker w))) o ->
  let r := perform (E:=Breaker.engine defaults) service name o w in
  Breaker.config (breaker (fst r)) = Breaker.config (breaker w)
  /\ Breaker.machine (breaker (fst r)) = Breaker.machine (breaker w)
  /\ worker_calls (snd r) = []
  /\ admissions (snd r) =
       match o with Run _ _ _ _ => ["rejected"] | Done _ _ _ _ => [] end.
Proof.
  intros Hopen Hbefore r. subst r.
  destruct o as [now worker args callback | now args callback arguments];
    simpl in *.
  - rewrite run_eq. cbv zeta. simpl attempt.
    rewrite (attempt_open now (breaker w) Hopen Hbefore).
    repeat split; reflexivity.
  - rewrite done_eq. cbv zeta. simpl report.
    destruct (report_open (outcome_of (truthy (callback arguments))) now
                (breaker w) Hopen) as (Hc & Hm & Hn).
    rewrite Hn. unfold world_after, trace_of. simpl.
    repeat split; try assumption.
    destruct (truthy (callback arguments)); reflexivity.
Qed.

Lemma perform_all_open (l : list op) (w : World) :
  Breaker.state (breaker w) = OPEN ->
  Forall (before (StateMachine.enteredAt (Breaker.machine (breaker w))
                  + Breaker.timeoutDuration (Breaker.config (breaker w)))) l ->
  let r := perform_all (E:=Breaker.engine defaults) service name l w in
  worker_calls (snd r) = []
  /\ admissions (snd r) = replicate (runs l) "rejected"
  /\ Breaker.state (breaker (fst r)) = OPEN.
Proof.
  intros Hopen Hl. revert w Hopen Hl.
  induction l as [|o l IH]; intros w Hopen Hl r; subst r.
  - simpl. repeat split; try reflexivity; exact Hopen.
  - apply Forall_cons in Hl as [Ho Hl].
    destruct (perform_open o w Hopen Ho) as (Hc & Hm & Hw & Ha).
    simpl perform_all.
    destruct (perform (E:=Breaker.engine defaults) service name o w)
      as [w1 t1]. simpl in Hc, Hm, Hw, Ha.
    assert (Hopen1 : Breaker.state (breaker w1) = OPEN)
      by (unfold Breaker.state in *; rewrite Hm; exact Hopen).
    rewrite <- Hc, <- Hm in Hl.
    destruct (IH w1 Hopen1 Hl) as (Hw' & Ha' & Hs').
    destruct (perform_all (E:=Breaker.engine defaults) service name l w1)
      as [w2 t2]. simpl in *.
    unfold worker_calls, admissions in *.
    rewrite !omap_app, Hw, Hw', Ha, Ha'.
    repeat split; try assumption.
    destruct o; reflexivity.
Qed.


End Thresholds.



(** ** The window of the engine *)

(** The admission check leaves the window alone: a rejected call counts
    neither as a success nor as a failure. *)
Lemma attempt_window (now : Z) (b : Breaker.t) :
  Breaker.window (snd (Breaker.attempt now b)) = Breaker.window b.
Proof.
  unfold Breaker.attempt.
  destruct (StateMachine.mayRun _ _ _). reflexivity.
Qed.

(** The percentage is zero on an empty window. *)
Lemma snapshot_empty (w : MetricsWindow.t) :
  Metrics.totalCount (MetricsWindow.snapshot w) = 0 ->
  Metrics.errorPercentage (MetricsWindow.snapshot w) = 0%Q.
Proof. unfold MetricsWindow.snapshot. simpl. intros ->. reflexivity. Qed.

(** Two failures and a success within one bucket, then the same window
    read again after more than its whole duration has elapsed. *)
Example window_counts :
  let w := MetricsWindow.record Success 1700
             (MetricsWindow.record Failure 1600
                (MetricsWindow.record Failure 1500
                   (MetricsWindow.create 10000 10 1000))) in
  MetricsWindow.snapshot w = Metrics.mk 3 2 (inject_Z 200 / inject_Z 3)%Q
  /\ MetricsWindow.snapshot (MetricsWindow.rotate 5000 w)
     = MetricsWindow.snapshot w
  /\ Metrics.totalCount
       (MetricsWindow.snapshot (MetricsWindow.rotate 12000 w)) = 0.
Proof. repeat split; reflexivity. Qed.

(** ** Histories, piece by piece *)

Section Pieces.
Context {B : Type} {E : Engine B}.
Variables service name : string.

(** A property of traces that holds of the empty trace, of every
    invocation of the completion function, of the opening of an admitted
    and of a rejected call, and that is kept by concatenation, holds of
    every history. *)
Lemma forEach_done_trace_ind (P : trace -> Prop) :
  P [] ->
  (forall t1 t2, P t1 -> P t2 -> P (t1 ++ t2)) ->
  (forall args callback a now (w : World (B:=B)),
      P (trace_of (done service name args callback a now w))) ->
  forall args callback l now (w : World (B:=B)),
    P (trace_of (forEach (done service name args callback) l now w)).
Proof.
  intros Hnil Happ Hdone args callback l now. induction l as [|a l IH];
    intros w.
  - exact Hnil.
  - rewrite forEach_cons. unfold trace_of at 1. simpl snd.
    apply Happ; [apply Hdone | apply IH].
Qed.

Lemma perform_all_trace_ind (P : trace -> Prop) :
  P [] ->
  (forall t1 t2, P t1 -> P t2 -> P (t1 ++ t2)) ->
  (forall args callback a now (w : World (B:=B)),
      P (trace_of (done service name args callback a now w))) ->
  (forall (b : B) args,
      P [Emit "run" (call_payload service name b args); ApplyWorker args]) ->
  (forall (b : B) args,
      P [Emit "rejected" (call_payload service name b args);
         ApplyCallback
           [VError ("Service Unavailable: " +:+ service +:+ " (" +:+ name
                    +:+ ")")]]) ->
  forall ops (w : World (B:=B)), P (snd (perform_all service name ops w)).
Proof.
  intros Hnil Happ Hdone Hrun Hrej ops.
  induction ops as [|o ops IH]; intros w; [exact Hnil|].
  simpl perform_all.
  assert (Ho : P (snd (perform service name o w))).
  { destruct o as [now worker args callback | now args callback a]; simpl.
    - rewrite run_eq. cbv zeta.
      destruct (fst (attempt now (breaker w))).
      + unfold trace_of at 1. simpl snd.
        apply (Happ [_; _]); [apply Hrun|].
        apply forEach_done_trace_ind; assumption.
      + apply Hrej.
    - apply Hdone. }
  destruct (perform service name o w) as [w1 t1].
  specialize (IH w1). destruct (perform_all service name ops w1) as [w2 t2].
  simpl in *. apply Happ; assumption.
Qed.

Lemma state_name_known (s : BreakerState) : In (state_name s) state_names.
Proof. destruct s; simpl; auto. Qed.

Lemma done_emitted (args : list jsarg) (callback : Callback)
    (a : list jsval) (now : Z) (w : World) :
  let o := outcome_of (truthy (callback a)) in
  let b' := fst (report o now (breaker w)) in
  emitted (trace_of (done service name args callback a now w)) =
  emitted (change_events service name b' (lastStateChange w) now
             (snd (report o now (breaker w))))
  ++ [(outcome_event o, call_payload service name b' args)].
Proof.
  rewrite done_eq. cbv zeta. unfold trace_of, emitted. simpl.
  rewrite omap_app. reflexivity.
Qed.

End Pieces.

(** ** What every history keeps *)

Section Histories.
Context {B : Type} {E : Engine B}.
Variables service name : string.

Lemma change_events_well_formed (b : B) (last : option Z) (now : Z)
    (changed : option Metrics.t) :
  Forall (well_formed service name)
    (emitted (change_events service name b last now changed)).
Proof.
  destruct changed as [m|]; simpl; [|constructor].
  constructor; [|constructor; [|constructor]];
    (split; [|split; [reflexivity|split; [reflexivity|]]]).
  - left. reflexivity.
  - apply state_name_known.
  - right. reflexivity.
  - apply state_name_known.
Qed.

Lemma call_well_formed (event : string) (b : B) (args : list jsarg) :
  In event call_names ->
  well_formed service name (event, call_payload service name b args).
Proof.
  intros He. repeat split; [exact He | apply state_name_known].
Qed.

(** X1.  Every event of every history is well formed: [run], [success],
    [failure] and [rejected] carry a call payload; a state-change payload
    comes under the name [stateChange] or under the name of the state it
    reports; every payload carries the service and the name of the
    breaker, and a state that is [open], [halfOpen] or [closed]. *)
Theorem history_well_formed (ops : list op) (w : World) :
  Forall (well_formed service name)
    (emitted (snd (perform_all service name ops w))).
Proof.
  apply (perform_all_trace_ind service name
           (fun t => Forall (well_formed service name) (emitted t))).
  - constructor.
  - intros t1 t2 H1 H2. unfold emitted. rewrite omap_app.
    apply Forall_app. split; assumption.
  - intros args callback a now w'. rewrite done_emitted. cbv zeta.
    apply Forall_app. split; [apply change_events_well_formed|].
    constructor; [|constructor]. apply call_well_formed.
    destruct (truthy (callback a)); simpl; auto.
  - intros b args. constructor; [|constructor].
    apply call_well_formed. simpl; auto.
  - intros b args. constructor; [|constructor].
    apply call_well_formed. simpl; auto.
Qed.

(** X3.  Over every history, the [success] and [failure] events are, in
    order, the outcomes reported to the engine: one event for each call of
    [success()] or [failure()], and none without. *)
Theorem history_outcome_events (ops : list op) (w : World) :
  outcome_events (snd (perform_all service name ops w)) =
  map outcome_event (reports (snd (perform_all service name ops w))).
Proof.
  apply (perform_all_trace_ind service name
           (fun t => outcome_events t = map outcome_event (reports t))).
  - reflexivity.
  - intros t1 t2 H1 H2. unfold outcome_events, reports in *.
    rewrite !omap_app, map_app, H1, H2. reflexivity.
  - intros args callback a now w'. rewrite done_eq. cbv zeta.
    unfold trace_of, outcome_events, reports. simpl.
    rewrite !omap_app.
    destruct (snd (report _ now (breaker w'))) as [m|];
      destruct (truthy (callback a)); simpl;
      try (destruct (_state _)); reflexivity.
  - reflexivity.
  - reflexivity.
Qed.

Lemma count_event_app (event : string) (t1 t2 : trace) :
  count_event event (t1 ++ t2) =
  (count_event event t1 + count_event event t2)%nat.
Proof. unfold count_event. rewrite omap_app. apply List.length_app. Qed.

Lemma done_admissions (args : list jsarg) (callback : Callback)
    (a : list jsval) (now : Z) (w : World) :
  let t := trace_of (done service name args callback a now w) in
  count_event "run" t = 0%nat /\ count_event "rejected" t = 0%nat.
Proof.
  rewrite done_eq. cbv zeta. unfold trace_of, count_event. simpl.
  rewrite !omap_app.
  destruct (snd (report _ now (breaker w))) as [m|];
    destruct (truthy (callback a)); simpl;
    try (destruct (_state _)); split; reflexivity.
Qed.

Lemma perform_admissions (o : op) (w : World) :
  (count_event "run" (snd (perform service name o w))
   + count_event "rejected" (snd (perform service name o w)))%nat
  = match o with Run _ _ _ _ => 1%nat | Done _ _ _ _ => 0%nat end.
Proof.
  destruct o as [now worker args callback | now args callback a]; simpl.
  - rewrite run_eq. cbv zeta.
    destruct (fst (attempt now (breaker w))); [|reflexivity].
    unfold trace_of at 1 3. simpl snd.
    change (Emit "run" (call_payload service name
                          (snd (attempt now (breaker w))) args)
              :: ApplyWorker args :: ?t)
      with ([Emit "run" (call_payload service name
                           (snd (attempt now (breaker w))) args);
             ApplyWorker args] ++ t).
    rewrite !count_event_app.
    destruct (forEach_done_trace_ind service name
                (fun t => count_event "run" t = 0%nat
                          /\ count_event "rejected" t = 0%nat))
      with (args := args) (callback := callback) (l := worker args)
           (now := now)
           (w := mkWorld (snd (attempt now (breaker w))) (lastStateChange w))
      as (Hr & Hj).
    + split; reflexivity.
    + intros t1 t2 [H1 H1'] [H2 H2']. rewrite !count_event_app.
      rewrite H1, H1', H2, H2'. split; reflexivity.
    + intros. apply done_admissions.
    + rewrite Hr, Hj. reflexivity.
  - destruct (done_admissions args callback a now w) as (Hr & Hj).
    rewrite Hr, Hj. reflexivity.
Qed.

(** X4.  Over every history, each call of [run] emits exactly one of
    [run] and [rejected]; the worker is applied once for each [run] event;
    and the callback is applied once for each outcome reported to the
    engine and once for each [rejected] event. *)
Theorem history_census (ops : list op) (w : World) :
  let t := snd (perform_all service name ops w) in
  (count_event "run" t + count_event "rejected" t)%nat = runs ops
  /\ length (worker_calls t) = count_event "run" t
  /\ length (callback_calls t)
     = (length (reports t) + count_event "rejected" t)%nat.
Proof.
  intros t. subst t. split.
  - revert w. induction ops as [|o ops IH]; intros w; [reflexivity|].
    simpl perform_all. pose proof (perform_admissions o w) as Ho.
    destruct (perform service name o w) as [w1 t1].
    specialize (IH w1). destruct (perform_all service name ops w1) as [w2 t2].
    cbn [fst snd] in *. rewrite !count_event_app.
    assert (Hruns : runs (o :: ops)
                    = (match o with
                       | Run _ _ _ _ => 1
                       | Done _ _ _ _ => 0
                       end + runs ops)%nat)
      by (destruct o; reflexivity).
    rewrite Hruns. lia.
  - apply (perform_all_trace_ind service name
             (fun t => length (worker_calls t) = count_event "run" t
                       /\ length (callback_calls t)
                          = (length (reports t)
                             + count_event "rejected" t)%nat)).
    + split; reflexivity.
    + intros t1 t2 [H1 H1'] [H2 H2'].
      unfold worker_calls, callback_calls, reports in *.
      rewrite !omap_app, !List.length_app, !count_event_app. lia.
    + intros args callback a now w'.
      destruct (done_observed service name args callback a now w')
        as (Hw & Hc & Hr).
      destruct (done_admissions args callback a now w') as (Hn & Hj).
      cbv zeta in *. rewrite Hw, Hc, Hr, Hn, Hj. split; reflexivity.
    + intros. split; reflexivity.
    + intros. split; reflexivity.
Qed.

End Histories.

(** ** Calls, one by one *)

Section Calls.
Context {B : Type} {E : Engine B}.
Variables service name : string.

(** X2.  An admitted call applies the worker exactly once, to the
    arguments of the call, applies the callback to each list of arguments
    the worker hands to the completion function, in order, and reports
    the verdict on each to the engine, in the same order; a rejected call
    applies the callback to the error and nothing else. *)
Theorem run_applications (worker : Worker) (args : list jsarg)
    (callback : Callback) (now : Z) (w : World) :
  let t := trace_of (run service name worker args callback now w) in
  if fst (attempt now (breaker w)) then
    worker_calls t = [args]
    /\ callback_calls t = worker args
    /\ reports t =
       map (fun a => if truthy (callback a) then Success else Failure)
         (worker args)
  else
    worker_calls t = []
    /\ callback_calls t =
       [[VError ("Service Unavailable: " +:+ service +:+ " (" +:+ name
                 +:+ ")")]]
    /\ reports t = [].
Proof.
  intros t. subst t. rewrite run_eq. cbv zeta.
  destruct (fst (attempt now (breaker w))).
  - destruct (forEach_done_observed service name args callback (worker args)
                now (mkWorld (snd (attempt now (breaker w)))
                       (lastStateChange w))) as (Hw & Hc & Hr).
    split; [|split]; unfold trace_of at 1; simpl;
      unfold worker_calls, callback_calls, reports in *.
    + rewrite Hw. reflexivity.
    + rewrite Hc. reflexivity.
    + rewrite Hr. reflexivity.
  - repeat split; reflexivity.
Qed.

Lemma perform_all_done (args : list jsarg) (callback : Callback)
    (l : list (list jsval)) (now : Z) (w : World) :
  perform_all service name (map (Done now args callback) l) w =
  (world_after (forEach (done service name args callback) l now w),
   trace_of (forEach (done service name args callback) l now w)).
Proof.
  revert w. induction l as [|a l IH]; intros w; [reflexivity|].
  rewrite forEach_cons. simpl map. simpl perform_all.
  rewrite IH. reflexivity.
Qed.

(** X6.  An admitted call whose worker completes before it returns is the
    same as the call with a worker that keeps the completion function,
    followed by the invocations of the completion function: the world and
    the trace are the same. *)
Theorem run_split (worker : Worker) (args : list jsarg)
    (callback : Callback) (now : Z) (w : World) :
  fst (attempt now (breaker w)) = true ->
  perform_all service name
    (Run now (fun _ => []) args callback
       :: map (Done now args callback) (worker args)) w
  = perform service name (Run now worker args callback) w.
Proof.
  intros Hadm. simpl perform_all. simpl perform.
  rewrite !run_eq. cbv zeta. rewrite Hadm.
  unfold world_after at 1, trace_of at 1. simpl fst. simpl snd.
  unfold forEach at 1 2, ret, world_after at 1, trace_of at 1.
  simpl fst. simpl snd.
  rewrite perform_all_done. reflexivity.
Qed.

(** X8.  The edge of the truthiness test on [lastStateChange]: when the
    previous state change was recorded at clock zero, the state change
    that follows reports the duration [null], and the clock of that state
    change is recorded. *)
Theorem zero_clock_duration (args : list jsarg) (callback : Callback)
    (arguments : list jsval) (now : Z) (w : World) (b' : B)
    (m : Metrics.t) :
  lastStateChange w = Some 0 ->
  report (if truthy (callback arguments) then Success else Failure) now
    (breaker w) = (b', Some m) ->
  let r := done service name args callback arguments now w in
  Forall (fun ev => match snd ev with
                    | Event.Change c => Event.duration c = None
                    | Event.Call _ => True
                    end) (emitted (trace_of r))
  /\ lastStateChange (world_after r) = Some now.
Proof.
  intros Hzero Hrep r. subst r. rewrite done_emitted, done_eq. cbv zeta.
  change (outcome_of (truthy (callback arguments)))
    with (if truthy (callback arguments) then Success else Failure).
  rewrite Hrep, Hzero. simpl. split; [|reflexivity].
  repeat constructor.
Qed.

Lemma latest_app (initial : option Z) (t1 t2 : trace) :
  latest initial (t1 ++ t2) = latest (latest initial t1) t2.
Proof.
  unfold latest, change_times. rewrite omap_app, last_app.
  destruct (last (omap _ t2)); reflexivity.
Qed.

Lemma done_latest (args : list jsarg) (callback : Callback)
    (a : list jsval) (now : Z) (w : World) :
  lastStateChange (world_after (done service name args callback a now w))
  = latest (lastStateChange w)
      (trace_of (done service name args callback a now w)).
Proof.
  rewrite done_eq. cbv zeta. unfold world_after, trace_of.
  simpl fst. simpl snd.
  change (ApplyCallback a :: EngineReport ?o :: ?t)
    with ([ApplyCallback a; EngineReport o] ++ t).
  rewrite !latest_app.
  destruct (snd (report _ now (breaker w))) as [m|]; simpl.
  - unfold latest, change_times. simpl.
    destruct (_state _); reflexivity.
  - reflexivity.
Qed.

Lemma forEach_done_latest (args : list jsarg) (callback : Callback)
    (l : list (list jsval)) (now : Z) (w : World) :
  lastStateChange
    (world_after (forEach (done service name args callback) l now w))
  = latest (lastStateChange w)
      (trace_of (forEach (done service name args callback) l now w)).
Proof.
  revert w. induction l as [|a l IH]; intros w; [reflexivity|].
  rewrite forEach_cons.
  change (lastStateChange
            (world_after
               (forEach (done service name args callback) l now
                  (world_after (done service name args callback a now w))))
          = latest (lastStateChange w)
              (trace_of (done service name args callback a now w)
               ++ trace_of
                    (forEach (done service name args callback) l now
                       (world_after
                          (done service name args callback a now w))))).
  rewrite latest_app, IH, done_latest. reflexivity.
Qed.

Lemma perform_latest (o : op) (w : World) :
  lastStateChange (fst (perform service name o w))
  = latest (lastStateChange w) (snd (perform service name o w)).
Proof.
  destruct o as [now worker args callback | now args callback a]; simpl.
  - rewrite run_eq. cbv zeta.
    destruct (fst (attempt now (breaker w))); [|reflexivity].
    unfold world_after at 1, trace_of at 1. simpl fst. simpl snd.
    rewrite forEach_done_latest. reflexivity.
  - apply done_latest.
Qed.

(** X7.  After every history, [lastStateChange] holds the [time] of the
    latest [stateChange] event of the history, and what it held before
    when the history has none: nothing but a state change moves it. *)
Theorem history_lastStateChange (ops : list op) (w : World) :
  lastStateChange (fst (perform_all service name ops w))
  = latest (lastStateChange w) (snd (perform_all service name ops w)).
Proof.
  revert w. induction ops as [|o ops IH]; intros w; [reflexivity|].
  simpl perform_all. pose proof (perform_latest o w) as Ho.
  destruct (perform service name o w) as [w1 t1].
  specialize (IH w1). destruct (perform_all service name ops w1) as [w2 t2].
  cbn [fst snd] in *. rewrite latest_app, <- Ho. exact IH.
Qed.

Lemma pop_inv (l args : list jsarg) (x : jsarg) :
  pop l = (args, Some x) -> l = args ++ [x].
Proof.
  revert args. induction l as [|a l IH]; intros args; [discriminate|].
  destruct l as [|a' l'].
  - intros [= <- <-]. reflexivity.
  - change (pop (a :: a' :: l')) with
      (let '(r, last) := pop (a' :: l') in (a :: r, last)).
    destruct (pop (a' :: l')) as [r last] eqn:Hp.
    intros [= <- ->]. rewrite (IH r eq_refl). reflexivity.
Qed.

(** X5.  [emitter.run] splits what follows the worker at its last
    element: whenever it runs, the callback is the trailing function, the
    worker's arguments are everything before it, in order and untouched,
    and the call is [run] on these. *)
Theorem emitter_run_inv (worker : Worker) (rest : list jsarg)
    (m : M unit) :
  emitter_run service name worker rest = Some m ->
  exists (args : list jsarg) (callback : Callback),
    rest = args ++ [Fn callback]
    /\ m = run service name worker args callback.
Proof.
  unfold emitter_run. destruct (pop rest) as [args [[v|callback]|]] eqn:Hp;
    try discriminate.
  intros [= <-]. exists args, callback. split; [|reflexivity].
  apply pop_inv, Hp.
Qed.

End Calls.

Lemma emitter_run_inv_witness :
  exists (args : list jsarg) (callback : Callback),
    [Data (VNum 1); Data (VStr "a"); Fn Scenario.accept]
      = args ++ [Fn callback]
    /\ run (E:=Scenario.engine) "S" "N" Scenario.sync
         [Data (VNum 1); Data (VStr "a")] Scenario.accept
       = run (E:=Scenario.engine) "S" "N" Scenario.sync args callback.
Proof.
  apply (emitter_run_inv (E:=Scenario.engine) "S" "N" Scenario.sync
           [Data (VNum 1); Data (VStr "a"); Fn Scenario.accept]).
  reflexivity.
Defined.

Lemma run_split_witness :
  perform_all (E:=Scenario.engine) "S" "N"
    [Run 1001 (fun _ => []) [] Scenario.refuse;
     Done 1001 [] Scenario.refuse [];
     Done 1001 [] Scenario.refuse []] Scenario.sensitive
  = perform (E:=Scenario.engine) "S" "N"
      (Run 1001 Scenario.twice [] Scenario.refuse) Scenario.sensitive.
Proof.
  apply (run_split (E:=Scenario.engine) "S" "N" Scenario.twice []
           Scenario.refuse 1001 Scenario.sensitive).
  reflexivity.
Defined.

Lemma zero_clock_duration_witness :
  lastStateChange Scenario.epoch_trial = Some 0
  /\ events (trace_of (Scenario.done [] Scenario.accept [] 3001
                         Scenario.epoch_trial))
     = ["stateChange"; "closed"; "success"]
  /\ Forall (fun ev => match snd ev with
                       | Event.Change c => Event.duration c = None
                       | Event.Call _ => True
                       end)
       (emitted (trace_of (Scenario.done [] Scenario.accept [] 3001
                             Scenario.epoch_trial))).
Proof.
  split; [reflexivity|]. split; [reflexivity|].
  apply (zero_clock_duration (E:=Scenario.engine) "S" "N" [] Scenario.accept
           [] 3001 Scenario.epoch_trial _ _ eq_refl eq_refl).
Defined.

Section CallArguments.
Context {B : Type} {E : Engine B}.
Variables service name : string.

(** X9.  Every call event of a call of [run], whether [run], [success],
    [failure] or [rejected] and however often the worker completes,
    carries the arguments of that call. *)
Theorem run_event_args (worker : Worker) (args : list jsarg)
    (callback : Callback) (now : Z) (w : World) :
  Forall (fun ev => match snd ev with
                    | Event.Call c => Event.c_args c = args
                    | Event.Change _ => True
                    end)
    (emitted (trace_of (run service name worker args callback now w))).
Proof.
  rewrite run_eq. cbv zeta.
  destruct (fst (attempt now (breaker w))).
  - unfold trace_of at 1. simpl. constructor; [reflexivity|].
    generalize (mkWorld (snd (attempt now (breaker w))) (lastStateChange w)).
    induction (worker args) as [|a l IH]; intros w1; [constructor|].
    rewrite forEach_cons. unfold trace_of at 1. cbn [snd].
    unfold emitted. rewrite omap_app. apply Forall_app. split; [|apply IH].
    fold (emitted (trace_of (done service name args callback a now w1))).
    rewrite done_emitted. cbv zeta. apply Forall_app. split.
    + destruct (snd (report _ now (breaker w1))); repeat constructor.
    + repeat constructor.
  - repeat constructor.
Qed.

End CallArguments.

(** A window with more buckets than milliseconds: its buckets are half a
    millisecond wide, and what it holds is evicted once the window has
    elapsed. *)
Example window_narrow_buckets :
  let w := MetricsWindow.record Failure 0 (MetricsWindow.create 5 10 0) in
  Metrics.totalCount (MetricsWindow.snapshot w) = 1
  /\ Metrics.totalCount
       (MetricsWindow.snapshot (MetricsWindow.rotate 4 w)) = 1
  /\ Metrics.totalCount
       (MetricsWindow.snapshot (MetricsWindow.rotate 5 w)) = 0
  /\ Metrics.totalCount
       (MetricsWindow.snapshot (MetricsWindow.rotate 1000000 w)) = 0.
Proof. repeat split; reflexivity. Qed.
